(** * FTC alliance win predictor: the statistical core of [src/App.jsx]

    The program fetches the match records of four teams, turns them into
    one score series per team, estimates a mean and a sample standard
    deviation per series, and from those computes the probability that
    the red alliance outscores the blue one, plus two density curves.

    Every function of [App.jsx] that takes part in that computation is
    embedded below under its own name.  The embedding is written once,
    over an interface [Arith] of the arithmetic JavaScript performs on
    numbers, and is then read in two arithmetics:

    - [float_arith]: IEEE 754 binary64 with round-to-nearest-even, the
      arithmetic an ECMAScript engine runs ([PrimFloat]); here the
      functions evaluate, [NaN] and the infinities included;
    - [R_arith]: exact real arithmetic, the arithmetic the specification
      speaks in ("real"); it has no [NaN], so statements over it carry
      the side conditions (a non-zero divisor) under which it agrees
      with the program.

    [jStat] (npm package [jstat]) is a dependency of the program, not
    part of it.  Its array statistics and its normal density and
    distribution functions are transcribed from the library; the
    functions they call in turn, [Math.exp], [Math.log] and [jStat.erf],
    are parameters.

    The file has two parts: the definitions (the arithmetics, the
    program, the notions the statements use, the data they are evaluated
    on), then the lemmas and the theorems, one chapter per component. *)

From Stdlib Require Import ZArith List String Ascii Bool Lia Lra.
From Stdlib Require Import Reals Floats.
Import ListNotations.

(** * Part 1: definitions *)

(** ** The arithmetic of JavaScript numbers *)

Class Arith (num : Type) : Type := {
  (** an integer literal, or an array's [length] *)
  lit : Z -> num;
  add : num -> num -> num;
  sub : num -> num -> num;
  mul : num -> num -> num;
  div : num -> num -> num;
  (** [Math.sqrt] *)
  sqrt : num -> num;
  (** [x <= y] *)
  leb : num -> num -> bool;
  (** [ToBoolean]: a number is falsy when it is [+0], [-0] or [NaN] *)
  truthy : num -> bool;
  (** [parseFloat(x.toFixed(2))] *)
  toFixed2 : num -> num;
  (** [Math.PI] *)
  Math_PI : num;
  (** the sum of two numbers does not depend on their order *)
  add_comm : forall x y : num, add x y = add y x
}.

Declare Scope num_scope.
Delimit Scope num_scope with num.
Infix "+" := add : num_scope.
Infix "-" := sub : num_scope.
Infix "*" := mul : num_scope.
Infix "/" := div : num_scope.
Infix "<=?" := leb : num_scope.

(** ** Exact real arithmetic *)

Definition R_leb (x y : R) : bool := if Rle_dec x y then true else false.

Definition R_truthy (x : R) : bool := if Req_dec_T x 0 then false else true.

(** [x.toFixed(2)] rounds the magnitude of [x] to the nearest multiple of
    1/100, the larger one on a tie, and keeps the sign; from 10^21 on it
    prints [x] itself. *)
Definition R_toFixed2 (x : R) : R :=
  if Rlt_dec (Rabs x) (IZR (10 ^ 21)) then
    let n := Zfloor (Rabs x * 100 + / 2) in
    if Rlt_dec x 0 then (- (IZR n / 100))%R else (IZR n / 100)%R
  else x.

#[export] Instance R_arith : Arith R := {
  lit := IZR;
  add := Rplus;
  sub := Rminus;
  mul := Rmult;
  div := Rdiv;
  sqrt := R_sqrt.sqrt;
  leb := R_leb;
  truthy := R_truthy;
  toFixed2 := R_toFixed2;
  Math_PI := PI;
  add_comm := Rplus_comm
}.

(** ** IEEE 754 binary64 arithmetic *)

(** The double nearest to an integer (the integer itself up to 2^53). *)
Definition float_lit (z : Z) : float :=
  SF2Prim (binary_normalize prec emax z 0 false).

Definition float_truthy (x : float) : bool :=
  negb (PrimFloat.is_zero x || PrimFloat.is_nan x).

(** [parseFloat(x.toFixed(2))] on a double.  Below 2^46 the magnitude
    times 100, rounded half up, is an integer [n < 2^53], and the double
    nearest to [n/100] is one correctly rounded division.  From 2^46 on
    the doubles are more than 0.01 apart: the two-decimal string is
    nearer to [x] than to any other double and parses back to [x].
    [NaN] and the infinities print and parse as themselves. *)
Definition float_toFixed2 (x : float) : float :=
  match Prim2SF x with
  | S754_finite s m e =>
      if PrimFloat.ltb (PrimFloat.abs x) 0x1p46%float then
        let n := if (0 <=? e)%Z then (Zpos m * 2 ^ e * 100)%Z
                 else ((Zpos m * 200 + 2 ^ (- e)) / 2 ^ (1 - e))%Z in
        let q := PrimFloat.div (float_lit n) (float_lit 100) in
        if s then PrimFloat.opp q else q
      else x
  | _ => x
  end.

Definition float_PI : float := 0x1.921fb54442d18p+1%float.

(** The law of the interface holds by the specification of the binary64
    sum, which treats its two arguments alike. *)
#[export] Instance float_arith : Arith float.
Proof.
  refine {| lit := float_lit;
            add := PrimFloat.add;
            sub := PrimFloat.sub;
            mul := PrimFloat.mul;
            div := PrimFloat.div;
            sqrt := PrimFloat.sqrt;
            leb := PrimFloat.leb;
            truthy := float_truthy;
            toFixed2 := float_toFixed2;
            Math_PI := float_PI;
            add_comm := _ |}.
  intros x y. apply Prim2SF_inj. rewrite !add_spec.
  destruct (Prim2SF x) as [sx|sx| |sx mx ex], (Prim2SF y) as [sy|sy| |sy my ey];
    try reflexivity; try (destruct sx, sy; reflexivity).
  unfold SF64add, SFadd.
  rewrite (Z.min_comm ey ex), Z.add_comm. reflexivity.
Defined.

(** ** Strings: [String.prototype.toLowerCase] on ASCII letters *)

Definition lower_ascii (c : ascii) : ascii :=
  let n := nat_of_ascii c in
  if (65 <=? n)%nat && (n <=? 90)%nat then ascii_of_nat (n + 32) else c.

Fixpoint toLowerCase (s : string) : string :=
  match s with
  | EmptyString => EmptyString
  | String c s' => String (lower_ascii c) (toLowerCase s')
  end.

(** ** The data the FTCScout API returns *)

(** An entry of [/teams/<n>/events/2024]: [stats] is [None] when the
    field is [null] or missing. *)
Record EventEntry : Type := {
  stats : option unit;
  eventCode : string
}.

(** An entry of [match.teams]. *)
Record TeamEntry : Type := {
  teamNumber : Z;
  alliance : string
}.

(** ** The program

    The functions of [App.jsx], in the order of the file.  The two
    [fetch] requests are answered by a record [Api]; the [async]
    functions that await them become functions of that record.  A score
    object carries its four point fields as numbers, which is what the
    API documents. *)

Section Program.

Context {num : Type} {A : Arith num}.

(** [Math.exp], [Math.log] and [jStat.erf]. *)
Variables Math_exp Math_log jStat_erf : num -> num.

Local Open Scope num_scope.

(** The score object of one alliance in one match. *)
Record Score : Type := {
  autoSpecimenPoints : num;
  autoSamplePoints : num;
  dcSpecimenPoints : num;
  dcSamplePoints : num
}.

(** A match: [teams] and [scores] may be missing; [scores] is an object
    keyed by the alliance colour. *)
Record Match : Type := {
  teams : option (list TeamEntry);
  scores : option (string -> option Score)
}.

(** What [fetch] answers for the two requests of the program. *)
Record Api : Type := {
  teamEvents : Z -> list EventEntry;
  eventMatches : string -> list Match
}.

Variable api : Api.

(** *** [getEventCodes] (lines 21 to 30) *)
Definition getEventCodes (teamNumber : Z) : list string :=
  map eventCode
    (filter (fun entry => match stats entry with Some _ => true | None => false end)
            (teamEvents api teamNumber)).

(** *** [getMatches] (lines 33 to 62) *)
Record Results : Type := {
  autoSpecimen : list num;
  autoSample : list num;
  dcSpecimen : list num;
  dcSample : list num
}.

Definition no_results : Results :=
  {| autoSpecimen := []; autoSample := []; dcSpecimen := []; dcSample := [] |}.

(** The four [push] calls of the loop body. *)
Definition push_score (results : Results) (score : Score) : Results :=
  {| autoSpecimen := autoSpecimen results ++ [autoSpecimenPoints score];
     autoSample := autoSample results ++ [autoSamplePoints score];
     dcSpecimen := dcSpecimen results ++ [dcSpecimenPoints score];
     dcSample := dcSample results ++ [dcSamplePoints score] |}.

(** [(match.teams || []).find(t => t.teamNumber === teamNumber)] *)
Definition find_teamEntry (m : Match) (team : Z) : option TeamEntry :=
  find (fun t => Z.eqb (teamNumber t) team)
       (match teams m with Some ts => ts | None => [] end).

(** [match.scores?.[color]] *)
Definition score_of (m : Match) (color : string) : option Score :=
  match scores m with
  | Some by_color => by_color color
  | None => None
  end.

(** One turn of [for (const match of data)]. *)
Definition getMatches_body (team : Z) (results : Results) (m : Match) : Results :=
  match find_teamEntry m team with
  | None => results
  | Some teamEntry =>
      let color := toLowerCase (alliance teamEntry) in
      match score_of m color with
      | Some score => push_score results score
      | None => results
      end
  end.

Definition getMatches (event : string) (team : Z) : Results :=
  fold_left (getMatches_body team) (eventMatches api event) no_results.

(** *** [addArrays], [addScalar] (lines 64 to 70) *)

(** [b[i] || 0]: a missing element and a falsy one both become [0]. *)
Definition or_zero (bi : option num) : num :=
  match bi with
  | Some v => if truthy v then v else lit 0
  | None => lit 0
  end.

Fixpoint addArrays_from (i : nat) (a b : list num) : list num :=
  match a with
  | [] => []
  | v :: a' => (v + or_zero (nth_error b i)) :: addArrays_from (S i) a' b
  end.

Definition addArrays (a b : list num) : list num := addArrays_from 0 a b.

Definition addScalar (arr : list num) (scalar : num) : list num :=
  map (fun v => v + scalar) arr.

(** *** [getAllScores] (lines 72 to 86) *)
Definition getAllScores_body (team : Z) (auto tele : string) (endgame : num)
    (allScores : list num) (event : string) : list num :=
  let m := getMatches event team in
  let total := if String.eqb auto "s" then autoSample m else autoSpecimen m in
  let total := if String.eqb tele "s" then addArrays total (dcSample m)
               else addArrays total (dcSpecimen m) in
  let total := addScalar total endgame in
  allScores ++ total.

Definition getAllScores (team : Z) (auto tele : string) (endgame : num) : list num :=
  fold_left (getAllScores_body team auto tele endgame) (getEventCodes team) [].

(** *** jStat: array statistics *)

(** [x ** 2] and [Math.pow(x, 2)]: the square, one rounded product. *)
Definition sq (x : num) : num := x * x.

(** [jStat.sum]: [while (--i >= 0) sum += arr[i]], from the last element
    to the first. *)
Definition jStat_sum (arr : list num) : num :=
  fold_left (fun sum v => sum + v) (rev arr) (lit 0).

Definition arr_length (arr : list num) : num := lit (Z.of_nat (List.length arr)).

Definition jStat_mean (arr : list num) : num := jStat_sum arr / arr_length arr.

(** [jStat.sumsqerr]: the sum of [(arr[i] - mean)^2], last to first. *)
Definition jStat_sumsqerr (arr : list num) : num :=
  let mean := jStat_mean arr in
  fold_left (fun sum v => let tmp := v - mean in sum + tmp * tmp) (rev arr) (lit 0).

(** [jStat.variance(arr, flag)]: [flag = true] asks for the sample
    variance. *)
Definition jStat_variance (arr : list num) (flag : bool) : num :=
  jStat_sumsqerr arr / (arr_length arr - lit (if flag then 1 else 0)).

Definition jStat_stdev (arr : list num) (flag : bool) : num :=
  sqrt (jStat_variance arr flag).

(** *** jStat: the normal distribution *)

(** The literals [0.5] and [-0.5], exactly a half in both arithmetics. *)
Definition half : num := lit 1 / lit 2.
Definition minus_half : num := lit (-1) / lit 2.

(** [jStat.normal.pdf] *)
Definition jStat_normal_pdf (x mean std : num) : num :=
  Math_exp (minus_half * Math_log (lit 2 * Math_PI)
            - Math_log std
            - sq (x - mean) / (lit 2 * std * std)).

(** [jStat.normal.cdf] *)
Definition jStat_normal_cdf (x mean std : num) : num :=
  half * (lit 1 + jStat_erf ((x - mean) / sqrt (lit 2 * std * std))).

(** *** [allianceWinProbability] (lines 88 to 105) *)

(** Lines 98 to 101 compute the same pair for each alliance: the sum of
    the two means and the sum of the two squared deviations. *)
Definition alliance_sum (mu1 sigma1 mu2 sigma2 : num) : num * num :=
  (mu1 + mu2, sq sigma1 + sq sigma2).

Definition allianceWinProbability
    (mu1 sigma1 mu2 sigma2 mu3 sigma3 mu4 sigma4 : num) : num :=
  let '(muA, varA) := alliance_sum mu1 sigma1 mu2 sigma2 in
  let '(muB, varB) := alliance_sum mu3 sigma3 mu4 sigma4 in
  let muD := muA - muB in
  let sigmaD := sqrt (varA + varB) in
  jStat_normal_cdf (muD / sigmaD) (lit 0) (lit 1).

(** *** [generateNormalData] (lines 108 to 120) *)
Record CurvePoint : Type := {
  x : num;
  y : num;
  label : string
}.

(** [for (let x = min; x <= max; x += step)]: each unit of fuel pays for
    one test of the loop condition; [None] when the fuel runs out before
    the condition fails. *)
Fixpoint generateNormalData_loop (fuel : nat) (x max step mean std : num)
    (label : string) (data : list CurvePoint) : option (list CurvePoint) :=
  match fuel with
  | O => None
  | S fuel' =>
      if x <=? max then
        let y := jStat_normal_pdf x mean std in
        generateNormalData_loop fuel' (x + step) max step mean std label
          (data ++ [{| x := toFixed2 x; y := y; label := label |}])
      else Some data
  end.

Definition generateNormalData (fuel : nat) (mean std : num) (label : string)
    : option (list CurvePoint) :=
  let min := mean - lit 3 * std in
  let max := mean + lit 3 * std in
  let step := (max - min) / lit 50 in
  generateNormalData_loop fuel min max step mean std label [].

(** *** [calculate] (lines 144 to 213) *)

(** One entry of the [teams] state.  [number] and [end_] hold what
    [parseInt] makes of the two text fields: [None] when the field is
    empty or [parseInt] yields [NaN], which is the test of the
    validation loop. *)
Record Team : Type := {
  number : option Z;
  auto : string;
  tele : string;
  end_ : option Z
}.

(** The three messages [setError] is called with. *)
Inductive Message : Type :=
| InvalidTeamNumber
| InvalidEndgamePoints
| ErrorComputingProbability.

(** The state the component renders.  [result] holds the number
    [winProb * 100] that the result string prints with two decimals. *)
Record AppState : Type := {
  result : option num;
  chartData : list CurvePoint;
  loading : bool;
  error : option Message
}.

(** [for (const t of teams)]: the first failing test sets the error and
    returns. *)
Fixpoint validate (teams : list Team) : option Message :=
  match teams with
  | [] => None
  | t :: teams' =>
      match number t, end_ t with
      | None, _ => Some InvalidTeamNumber
      | Some _, None => Some InvalidEndgamePoints
      | Some _, Some _ => validate teams'
      end
  end.

(** [getAllScores(parseInt(t.number), t.auto, t.tele, parseInt(t.end))];
    both fields have passed the validation when this runs. *)
Definition team_scores (t : Team) : list num :=
  match number t, end_ t with
  | Some n, Some e => getAllScores n (auto t) (tele t) (lit e)
  | _, _ => []
  end.

(** [[jStat.mean(s), jStat.stdev(s, true)]] *)
Definition team_stats (s : list num) : num * num :=
  (jStat_mean s, jStat_stdev s true).

(** What the [try] block does: it returns the probability and the chart,
    or throws. *)
Inductive Outcome : Type :=
| Returned (winProb : num) (chart : list CurvePoint)
| Thrown.

(** The body of [try].  [stats[k]] is [undefined] when there are fewer
    than [k + 1] teams, and reading [stats[k][0]] then throws; all eight
    reads happen before [setResult].  [None]: a call of
    [generateNormalData] did not return within the fuel. *)
Definition calculate_try (fuel : nat) (teams : list Team) : option Outcome :=
  let scores := map team_scores teams in
  let stats := map team_stats scores in
  match nth_error stats 0, nth_error stats 1, nth_error stats 2, nth_error stats 3 with
  | Some s0, Some s1, Some s2, Some s3 =>
      let winProb :=
        allianceWinProbability (fst s0) (snd s0) (fst s1) (snd s1)
                               (fst s2) (snd s2) (fst s3) (snd s3) in
      match generateNormalData fuel (fst s0 + fst s1)
              (sqrt (sq (snd s0) + sq (snd s1))) "Red Alliance" with
      | None => None
      | Some redData =>
          match generateNormalData fuel (fst s2 + fst s3)
                  (sqrt (sq (snd s2) + sq (snd s3))) "Blue Alliance" with
          | None => None
          | Some blueData => Some (Returned winProb (redData ++ blueData))
          end
      end
  | _, _, _, _ => Some Thrown
  end.

(** [calculate]: the state it leaves, [None] when it does not finish
    within the fuel. *)
Definition calculate (fuel : nat) (teams : list Team) : option AppState :=
  match validate teams with
  | Some msg =>
      Some {| result := None; chartData := []; loading := false; error := Some msg |}
  | None =>
      match calculate_try fuel teams with
      | None => None
      | Some (Returned winProb chart) =>
          Some {| result := Some (winProb * lit 100); chartData := chart;
                  loading := false; error := None |}
      | Some Thrown =>
          Some {| result := None; chartData := []; loading := false;
                  error := Some ErrorComputingProbability |}
      end
  end.

End Program.

(** ** The notions the statements use *)

Section Notions.

Context {num : Type} {A : Arith num}.

Local Open Scope num_scope.

(** The score entry of a match that [getMatches] reads for a team: the
    team is listed in the match, and the match has a score object for
    the team's alliance colour. *)
Definition usable_score (team : Z) (m : @Match num) : option (@Score num) :=
  match find_teamEntry m team with
  | Some teamEntry => score_of m (toLowerCase (alliance teamEntry))
  | None => None
  end.

(** The usable score entries of an event, in the order of its matches. *)
Fixpoint usable_scores (team : Z) (data : list (@Match num)) : list (@Score num) :=
  match data with
  | [] => []
  | m :: data' =>
      match usable_score team m with
      | Some score => score :: usable_scores team data'
      | None => usable_scores team data'
      end
  end.

(** The series that results from choosing one autonomous and one
    driver-controlled component per usable record, event after event. *)
Definition series_of (api : @Api num) (team : Z) (pick_auto pick_tele : @Score num -> num)
    (endgame : num) : list num :=
  flat_map
    (fun event =>
       map (fun score => pick_auto score + or_zero (Some (pick_tele score)) + endgame)
           (usable_scores team (eventMatches api event)))
    (getEventCodes api team).

(** The match total as the specification words it: the flags are the
    strings "sample" and "specimen", and the total is the plain sum of
    three numbers. *)
Definition spec_match_total (auto tele : string) (endgame : num) (score : @Score num) : num :=
  (if String.eqb auto "sample" then autoSamplePoints score else autoSpecimenPoints score)
  + (if String.eqb tele "sample" then dcSamplePoints score else dcSpecimenPoints score)
  + endgame.

(** The same total with the flag the program tests for, ["s"]. *)
Definition match_total (auto tele : string) (endgame : num) (score : @Score num) : num :=
  (if String.eqb auto "s" then autoSamplePoints score else autoSpecimenPoints score)
  + (if String.eqb tele "s" then dcSamplePoints score else dcSpecimenPoints score)
  + endgame.

(** [b || 0] is [b]: true of every real number, and of every double but
    [NaN] and [-0]. *)
Definition keeps_value (b : num) : Prop := or_zero (Some b) = b.

(** The four arrays that hold the components of a list of records. *)
Definition results_of (l : list (@Score num)) : Results :=
  {| autoSpecimen := map autoSpecimenPoints l;
     autoSample := map autoSamplePoints l;
     dcSpecimen := map dcSpecimenPoints l;
     dcSample := map dcSamplePoints l |}.

(** A number between 0 and 1; [false] for [NaN]. *)
Definition is_probability (p : num) : bool :=
  (lit 0 <=? p) && (p <=? lit 1).

End Notions.

(** The standard normal distribution function, written with the error
    function: [Phi z = (1 + erf (z / sqrt 2)) / 2]. *)
Definition std_normal_cdf (erf : R -> R) (z : R) : R :=
  ((1 + erf (z / R_sqrt.sqrt 2)) / 2)%R.

(** The statistics of a series contain a [NaN]. *)
Definition has_nan (s : float * float) : Prop :=
  fst s = nan \/ snd s = nan.

(** A double that is neither [NaN] nor an infinity. *)
Definition finite_double (x : float) : bool :=
  match Prim2SF x with
  | S754_zero _ | S754_finite _ _ _ => true
  | S754_infinity _ | S754_nan => false
  end.

(** A finite double above zero. *)
Definition positive_double (x : float) : bool :=
  match Prim2SF x with
  | S754_finite false _ _ => true
  | _ => false
  end.

(** A fuelled function that does not return, however much fuel it gets. *)
Inductive Diverges {T : Type} (run : nat -> option T) : Prop :=
| diverges : (forall fuel : nat, run fuel = None) -> Diverges run.

(** The point the body of the sampling loop pushes at [x], in exact
    arithmetic, with the exponential and the logarithm of the reals. *)
Definition curve_point (mean std : R) (label : string) (x : R) : @CurvePoint R :=
  Build_CurvePoint (R_toFixed2 x) (jStat_normal_pdf exp ln x mean std) label.

(** The values [x] takes in the loop: [n] of them, [step] apart, from [x0]
    on. *)
Fixpoint xs_from (step : R) (n : nat) (x0 : R) : list R :=
  match n with
  | O => []
  | S n' => x0 :: xs_from step n' (x0 + step)%R
  end.

(** ** Functions to run the parameters on

    The theorems below quantify over [Math.exp], [Math.log] and
    [jStat.erf].  A closed evaluation has to name three functions: these
    are the ones used.  No statement depends on their values beyond what
    is said where they are used. *)

(** A function with the shape of the error function: odd, increasing,
    0 at 0, between -1 and 1, and [NaN] at [NaN]. *)
Definition erf_shape {num : Type} {A : Arith num} (z : num) : num :=
  let r := sqrt (sub (lit 1) (div (lit 1) (add (lit 1) (mul z z)))) in
  if leb (lit 0) z then r else sub (lit 0) r.

Fixpoint iter_sq (n : nat) (q : float) : float :=
  match n with
  | O => q
  | S n' => iter_sq n' (q * q)%float
  end.

(** An approximation of [exp] on doubles, as ECMAScript lets an engine
    choose one: the degree-8 Taylor polynomial at [x / 1024], squared ten
    times.  It is [NaN] at [NaN], [1] at zero, [+0] at [-infinity] and
    [+infinity] at [+infinity]. *)
Definition engine_exp (x : float) : float :=
  (if x <? -746 then 0
   else
     let y := x / 1024 in
     iter_sq 10
       (1 + y * (1 + y / 2 * (1 + y / 3 * (1 + y / 4 * (1 + y / 5 *
         (1 + y / 6 * (1 + y / 7 * (1 + y / 8)))))))))%float.

Definition halley (x y : float) : float :=
  (let e := engine_exp y in y + 2 * (x - e) / (x + e))%float.

(** An approximation of [log] on doubles: four Halley steps on
    [engine_exp], from the binary exponent.  It is [NaN] at [NaN] and below
    zero, [-infinity] at zero, [+0] at [1] and [+infinity] at
    [+infinity]. *)
Definition engine_log (x : float) : float :=
  (if is_nan x || (x <? 0) then nan
   else if x =? 0 then neg_infinity
   else if x =? 1 then 0
   else if x =? infinity then infinity
   else
     let '(m, e) := Z.frexp x in
     let y0 := float_lit e * 0x1.62e42fefa39efp-1 + (m - 1) in
     halley x (halley x (halley x (halley x y0))))%float.

(** ** An API answer to evaluate on *)

(** One team, number 7, with two events.  Only the first event has
    statistics.  It has four matches: one the team played as Red, one it
    did not play, one it played whose scores are missing, and one it
    played as BLUE. *)
Definition demo_score (a b c d : Z) : @Score float :=
  {| autoSpecimenPoints := float_lit a; autoSamplePoints := float_lit b;
     dcSpecimenPoints := float_lit c; dcSamplePoints := float_lit d |}.

Definition demo_scores (red blue : @Score float) : option (string -> option (@Score float)) :=
  Some (fun color =>
          if String.eqb color "red" then Some red
          else if String.eqb color "blue" then Some blue
          else None).

Definition demo_matches : list (@Match float) :=
  [ {| teams := Some [ {| teamNumber := 7; alliance := "Red" |};
                       {| teamNumber := 8; alliance := "Blue" |} ];
       scores := demo_scores (demo_score 20 10 40 30) (demo_score 1 2 3 4) |};
    {| teams := Some [ {| teamNumber := 8; alliance := "Red" |};
                       {| teamNumber := 9; alliance := "Blue" |} ];
       scores := demo_scores (demo_score 5 6 7 8) (demo_score 9 10 11 12) |};
    {| teams := Some [ {| teamNumber := 7; alliance := "Red" |} ];
       scores := None |};
    {| teams := Some [ {| teamNumber := 9; alliance := "Red" |};
                       {| teamNumber := 7; alliance := "BLUE" |} ];
       scores := demo_scores (demo_score 13 14 15 16) (demo_score 24 12 36 48) |} ].

Definition demo_api : @Api float :=
  {| teamEvents := fun team =>
       if Z.eqb team 7
       then [ {| stats := Some tt; eventCode := "EV1" |};
              {| stats := None; eventCode := "EV2" |} ]
       else [];
     eventMatches := fun event =>
       if String.eqb event "EV1" then demo_matches else [] |}.

(** Four form entries, for the teams 7, 8, 9 and 10: [demo_api] lists
    events for team 7 only, so the series of the other three are empty. *)
Definition demo_team (n : Z) (auto tele : string) : Team :=
  {| number := Some n; auto := auto; tele := tele; end_ := Some 30%Z |}.

Definition demo_teams : list Team :=
  [demo_team 7 "S" "S"; demo_team 8 "s" "s"; demo_team 9 "S" "S"; demo_team 10 "s" "s"].

(** * Part 2: lemmas and theorems *)

(** ** Lists *)

Lemma flat_map_agree {X Y : Type} (f g : X -> list Y) (l : list X) :
  (forall x, In x l -> f x = g x) -> flat_map f l = flat_map g l.
Proof.
  induction l as [|x l IH]; intros H; simpl; [reflexivity|].
  rewrite (H x) by (now left).
  f_equal. apply IH. intros x' Hx'. apply H. now right.
Qed.

Lemma flat_map_nil {X Y : Type} (f : X -> list Y) (l : list X) :
  (forall x, In x l -> f x = []) -> flat_map f l = [].
Proof.
  induction l as [|x l IH]; intros H; simpl; [reflexivity|].
  rewrite (H x) by (now left). simpl.
  apply IH. intros x' Hx'. apply H. now right.
Qed.

(** ** Facts of binary64 arithmetic *)

Section FloatFacts.

Local Open Scope float_scope.

Lemma Prim2SF_nan : Prim2SF nan = S754_nan.
Proof. reflexivity. Qed.

Lemma Prim2SF_zero : Prim2SF 0 = S754_zero false.
Proof. reflexivity. Qed.

(** [NaN] is absorbing for the four operations, and compares with
    nothing. *)
Lemma float_add_nan_l (x : float) : nan + x = nan.
Proof.
  apply Prim2SF_inj. rewrite add_spec, Prim2SF_nan. reflexivity.
Qed.

Lemma float_add_nan_r (x : float) : x + nan = nan.
Proof.
  apply Prim2SF_inj. rewrite add_spec, Prim2SF_nan.
  destruct (Prim2SF x); reflexivity.
Qed.

Lemma float_sub_nan_l (x : float) : nan - x = nan.
Proof.
  apply Prim2SF_inj. rewrite sub_spec, Prim2SF_nan. reflexivity.
Qed.

Lemma float_sub_nan_r (x : float) : x - nan = nan.
Proof.
  apply Prim2SF_inj. rewrite sub_spec, Prim2SF_nan.
  destruct (Prim2SF x); reflexivity.
Qed.

Lemma float_mul_nan_l (x : float) : nan * x = nan.
Proof.
  apply Prim2SF_inj. rewrite mul_spec, Prim2SF_nan. reflexivity.
Qed.

Lemma float_mul_nan_r (x : float) : x * nan = nan.
Proof.
  apply Prim2SF_inj. rewrite mul_spec, Prim2SF_nan.
  destruct (Prim2SF x); reflexivity.
Qed.

Lemma float_div_nan_l (x : float) : nan / x = nan.
Proof.
  apply Prim2SF_inj. rewrite div_spec, Prim2SF_nan. reflexivity.
Qed.

Lemma float_div_nan_r (x : float) : x / nan = nan.
Proof.
  apply Prim2SF_inj. rewrite div_spec, Prim2SF_nan.
  destruct (Prim2SF x); reflexivity.
Qed.

Lemma float_leb_nan_l (x : float) : (nan <=? x) = false.
Proof. rewrite leb_spec, Prim2SF_nan. reflexivity. Qed.

Lemma float_leb_nan_r (x : float) : (x <=? nan) = false.
Proof.
  rewrite leb_spec, Prim2SF_nan. unfold SFleb, SFcompare.
  destruct (Prim2SF x); reflexivity.
Qed.

(** A zero of either sign divided by [+0] is [NaN]. *)
Lemma float_zero_div_zero (x : float) :
  PrimFloat.is_zero x = true -> x / 0 = nan.
Proof.
  unfold PrimFloat.is_zero. rewrite eqb_spec. intros H.
  apply Prim2SF_inj. rewrite div_spec.
  rewrite Prim2SF_zero in *.
  destruct (Prim2SF x) as [s|s| |s m e];
    try discriminate; try (destruct s; discriminate).
  reflexivity.
Qed.

(** Subtracting [+0] changes nothing; adding it changes [-0] only, and
    only once. *)
Lemma float_sub_zero_r (x : float) : x - 0 = x.
Proof.
  apply Prim2SF_inj. rewrite sub_spec, Prim2SF_zero.
  destruct (Prim2SF x) as [s|s| |s m e]; try destruct s; reflexivity.
Qed.

Lemma float_add_zero_twice (x : float) : x + 0 + 0 = x + 0.
Proof.
  apply Prim2SF_inj. rewrite !add_spec, Prim2SF_zero.
  destruct (Prim2SF x) as [s|s| |s m e]; try destruct s; reflexivity.
Qed.

Lemma SFleb_refl (s : bool) (m : positive) (e : Z) :
  SFleb (S754_finite s m e) (S754_finite s m e) = true.
Proof.
  unfold SFleb, SFcompare.
  destruct s; rewrite Z.compare_refl, Pos.compare_cont_refl; reflexivity.
Qed.

Lemma float_leb_add_zero (x : float) :
  finite_double x = true -> (x <=? x + 0) = true /\ (x + 0 <=? x + 0) = true.
Proof.
  unfold finite_double. intros Hfin.
  rewrite !leb_spec, !add_spec, Prim2SF_zero.
  destruct (Prim2SF x) as [s|s| |s m e]; try discriminate.
  - destruct s; split; reflexivity.
  - split; apply SFleb_refl.
Qed.

(** The difference of a finite double with itself is [+0]. *)
Lemma float_sub_self (x : float) :
  finite_double x = true -> x + 0 - x = 0.
Proof.
  unfold finite_double. intros Hfin.
  apply Prim2SF_inj. rewrite sub_spec, add_spec, Prim2SF_zero.
  destruct (Prim2SF x) as [s|s| |s m e]; try discriminate.
  - destruct s; reflexivity.
  - unfold SF64add, SF64sub, SFadd, SFsub.
    rewrite Z.sub_diag. reflexivity.
Qed.

Lemma float_sub_diag (x : float) :
  finite_double x = true -> x - x = 0.
Proof.
  unfold finite_double. intros Hfin.
  apply Prim2SF_inj. rewrite sub_spec, Prim2SF_zero.
  destruct (Prim2SF x) as [s|s| |s m e]; try discriminate.
  - destruct s; reflexivity.
  - unfold SF64sub, SFsub.
    rewrite Z.sub_diag. reflexivity.
Qed.

(** [+0] divided by a positive finite double is [+0]. *)
Lemma float_zero_div_pos (x : float) :
  positive_double x = true -> 0 / x = 0.
Proof.
  unfold positive_double. intros Hx. apply Prim2SF_inj.
  rewrite div_spec, Prim2SF_zero.
  destruct (Prim2SF x) as [s|s| |[|] m e]; try discriminate.
  reflexivity.
Qed.

(** The sign of a rounded result is the sign that was asked for: negating
    commutes with rounding. *)
Lemma SFopp_binary_round_aux (s : bool) (m e : Z) (l : location) :
  SFopp (binary_round_aux prec emax s m e l) = binary_round_aux prec emax (negb s) m e l.
Proof.
  unfold binary_round_aux.
  destruct (shr_fexp prec emax m e l) as [mrs' e'].
  destruct (shr_fexp prec emax _ e' loc_Exact) as [mrs'' e''].
  destruct (shr_m mrs''); try reflexivity.
  destruct (Z.leb e'' (emax - prec)); reflexivity.
Qed.

Lemma SFopp_binary_round (s : bool) (m : positive) (e : Z) :
  SFopp (binary_round prec emax s m e) = binary_round prec emax (negb s) m e.
Proof.
  unfold binary_round.
  destruct (shl_align m e _) as [mz ez].
  apply SFopp_binary_round_aux.
Qed.

Lemma float_div_opp_l (x y : float) : (- x) / y = - (x / y).
Proof.
  apply Prim2SF_inj. rewrite opp_spec, !div_spec, opp_spec.
  destruct (Prim2SF x) as [sx|sx| |sx mx ex], (Prim2SF y) as [sy|sy| |sy my ey];
    try reflexivity; try (destruct sx, sy; reflexivity).
  unfold SF64div, SFdiv, SFopp at 1.
  destruct (SFdiv_core_binary prec emax (Z.pos mx) ex (Z.pos my) ey) as [[mz ez] lz].
  rewrite SFopp_binary_round_aux.
  destruct sx, sy; reflexivity.
Qed.

(** Swapping the operands of a difference that is not zero negates it. *)
Lemma float_sub_antisym (x y : float) :
  PrimFloat.is_zero (x - y) = false -> y - x = - (x - y).
Proof.
  unfold PrimFloat.is_zero. rewrite eqb_spec, sub_spec. intros Hnz.
  change (Prim2SF zero) with (S754_zero false) in Hnz.
  apply Prim2SF_inj. rewrite opp_spec, !sub_spec.
  destruct (Prim2SF x) as [sx|sx| |sx mx ex], (Prim2SF y) as [sy|sy| |sy my ey];
    try reflexivity; try (destruct sx, sy; try reflexivity; discriminate).
  unfold SF64sub, SFsub in *.
  rewrite (Z.min_comm ey ex).
  set (ez := Z.min ex ey) in *.
  set (a := cond_Zopp sx (Z.pos (fst (shl_align mx ex ez)))) in *.
  set (b := cond_Zopp sy (Z.pos (fst (shl_align my ey ez)))) in *.
  replace (b - a)%Z with (- (a - b))%Z by ring.
  destruct (a - b)%Z as [|p|p]; simpl.
  - discriminate.
  - now rewrite SFopp_binary_round.
  - now rewrite SFopp_binary_round.
Qed.

Lemma float_add_comm (x y : float) : x + y = y + x.
Proof. exact (@add_comm float float_arith x y). Qed.

Lemma erf_shape_float_nan : erf_shape nan = nan.
Proof. reflexivity. Qed.

End FloatFacts.

Create Rewrite HintDb float_nan.

#[export] Hint Rewrite float_add_nan_l float_add_nan_r float_sub_nan_l
  float_sub_nan_r float_mul_nan_l float_mul_nan_r float_div_nan_l
  float_div_nan_r float_leb_nan_l float_leb_nan_r : float_nan.

(** ** Facts of exact arithmetic *)

Section RealFacts.

Local Open Scope R_scope.

Lemma R_leb_true (a b : R) : a <= b -> R_leb a b = true.
Proof. intros H. unfold R_leb. now destruct (Rle_dec a b). Qed.

Lemma R_leb_false (a b : R) : b < a -> R_leb a b = false.
Proof. intros H. unfold R_leb. destruct (Rle_dec a b); [lra | reflexivity]. Qed.

(** Every real number is left as it is by [b || 0]. *)
Lemma keeps_value_R (b : R) : keeps_value b.
Proof.
  unfold keeps_value, or_zero; simpl. unfold R_truthy.
  destruct (Req_dec_T b 0) as [-> | _]; reflexivity.
Qed.

(** Rounding to two decimals moves a number by at most 0.005. *)
Lemma R_toFixed2_close (v : R) : Rabs (R_toFixed2 v - v) <= / 200.
Proof.
  unfold R_toFixed2.
  destruct (Rlt_dec (Rabs v) (IZR (10 ^ 21))) as [_|_].
  - pose proof (Zfloor_bound (Rabs v * 100 + / 2)) as [Hlo Hhi].
    set (n := IZR (Zfloor (Rabs v * 100 + / 2))) in *.
    destruct (Rlt_dec v 0) as [Hneg|Hpos].
    + rewrite (Rabs_left v Hneg) in Hlo, Hhi.
      apply Rabs_le. lra.
    + rewrite (Rabs_right v) in Hlo, Hhi by lra.
      apply Rabs_le. lra.
  - replace (v - v) with 0 by ring. rewrite Rabs_R0. lra.
Qed.

(** [erf_shape] over the reals stays between -1 and 1 and is odd. *)
Lemma erf_shape_R_range (z : R) : -1 <= erf_shape z <= 1.
Proof.
  unfold erf_shape; simpl.
  assert (Hz : 1 <= 1 + z * z) by nra.
  assert (Hinv : 0 < / (1 + z * z) <= 1).
  { split.
    - apply Rinv_0_lt_compat. lra.
    - rewrite <- Rinv_1. apply Rinv_le_contravar; lra. }
  assert (Hr : 0 <= R_sqrt.sqrt (1 - 1 / (1 + z * z)) <= 1).
  { split.
    - apply sqrt_pos.
    - apply Rle_trans with (R_sqrt.sqrt 1).
      + apply sqrt_le_1_alt. unfold Rdiv. lra.
      + rewrite sqrt_1. lra. }
  unfold R_leb. destruct (Rle_dec 0 z); lra.
Qed.

Lemma erf_shape_R_odd (z : R) : erf_shape (- z) = - erf_shape z.
Proof.
  unfold erf_shape; simpl.
  replace (- z * - z) with (z * z) by ring.
  unfold R_leb.
  destruct (Rle_dec 0 (- z)), (Rle_dec 0 z); try lra.
  assert (z = 0) by lra. subst z.
  replace (1 - 1 / (1 + 0 * 0)) with 0 by field.
  rewrite sqrt_0. ring.
Qed.

End RealFacts.

(** ** The score aggregator: [getMatches] and [getAllScores] *)

Section Aggregator.

Context {num : Type} {A : Arith num}.

Local Open Scope num_scope.

Lemma push_score_results_of (l : list (@Score num)) (score : @Score num) :
  push_score (results_of l) score = results_of (l ++ [score]).
Proof.
  unfold push_score, results_of; simpl.
  now rewrite !map_app.
Qed.

Lemma getMatches_body_usable (team : Z) (l : list (@Score num)) (m : @Match num) :
  getMatches_body team (results_of l) m =
  results_of (l ++ match usable_score team m with Some s => [s] | None => [] end).
Proof.
  unfold getMatches_body, usable_score.
  destruct (find_teamEntry m team) as [teamEntry|].
  - destruct (score_of m (toLowerCase (alliance teamEntry))) as [score|].
    + apply push_score_results_of.
    + now rewrite app_nil_r.
  - now rewrite app_nil_r.
Qed.

Lemma getMatches_fold (team : Z) (data : list (@Match num)) :
  forall l : list (@Score num),
    fold_left (getMatches_body team) data (results_of l) =
    results_of (l ++ usable_scores team data).
Proof.
  induction data as [|m data IH]; intros l; simpl.
  - now rewrite app_nil_r.
  - rewrite getMatches_body_usable.
    destruct (usable_score team m) as [score|].
    + rewrite IH, <- app_assoc. reflexivity.
    + rewrite app_nil_r. apply IH.
Qed.

(** [getMatches] returns the components of the usable records, and of
    nothing else: a match without an entry for the team, or without a
    score object for its colour, adds nothing to the four arrays. *)
Lemma getMatches_usable (api : @Api num) (event : string) (team : Z) :
  getMatches api event team = results_of (usable_scores team (eventMatches api event)).
Proof.
  unfold getMatches.
  change no_results with (results_of (@nil (@Score num))).
  apply getMatches_fold.
Qed.

Lemma addArrays_from_map {T : Type} (f g : T -> num) (l : list T) :
  forall pre : list T,
    addArrays_from (List.length pre) (map f l) (map g (pre ++ l)) =
    map (fun s => f s + or_zero (Some (g s))) l.
Proof.
  induction l as [|s l IH]; intros pre; simpl.
  - reflexivity.
  - f_equal.
    + rewrite nth_error_map, nth_error_app2 by lia.
      now rewrite Nat.sub_diag.
    + specialize (IH (pre ++ [s])).
      rewrite length_app, Nat.add_1_r, <- app_assoc in IH.
      exact IH.
Qed.

(** On two columns of the same records [addArrays] adds record by
    record: the index never runs past the second array. *)
Lemma addArrays_map {T : Type} (f g : T -> num) (l : list T) :
  addArrays (map f l) (map g l) = map (fun s => f s + or_zero (Some (g s))) l.
Proof. exact (addArrays_from_map f g l []). Qed.

Lemma getAllScores_body_series (api : @Api num) (team : Z) (auto tele : string)
    (endgame : num) (allScores : list num) (event : string) :
  getAllScores_body api team auto tele endgame allScores event =
  allScores ++
  map (fun score =>
         (if String.eqb auto "s" then autoSamplePoints score else autoSpecimenPoints score)
         + or_zero (Some (if String.eqb tele "s" then dcSamplePoints score
                          else dcSpecimenPoints score))
         + endgame)
      (usable_scores team (eventMatches api event)).
Proof.
  unfold getAllScores_body, addScalar.
  rewrite getMatches_usable. f_equal.
  destruct (String.eqb auto "s"), (String.eqb tele "s"); simpl;
    rewrite addArrays_map, map_map; reflexivity.
Qed.

(** [getAllScores] is the series of the selected components, the flag
    ["s"] selecting the sample component. *)
Lemma getAllScores_series (api : @Api num) (team : Z) (auto tele : string) (endgame : num) :
  getAllScores api team auto tele endgame =
  series_of api team
    (fun score => if String.eqb auto "s" then autoSamplePoints score
                  else autoSpecimenPoints score)
    (fun score => if String.eqb tele "s" then dcSamplePoints score
                  else dcSpecimenPoints score)
    endgame.
Proof.
  unfold getAllScores, series_of.
  rewrite <- (app_nil_l (flat_map _ _)).
  generalize (@nil num) as acc.
  induction (getEventCodes api team) as [|event events IH]; intros acc; simpl.
  - now rewrite app_nil_r.
  - rewrite IH, getAllScores_body_series, <- app_assoc. reflexivity.
Qed.


(** C10: the aggregator compares each mode flag with the string ["s"]:
    the sample component is selected exactly when the flag equals ["s"],
    and the specimen component for every other string, ["S"], ["sample"]
    and ["specimen"] included. *)
Theorem getAllScores_flag_is_s (api : @Api num) (team : Z) (endgame : num) :
  (forall auto tele : string,
      getAllScores api team auto tele endgame =
      series_of api team
        (if string_dec auto "s" then autoSamplePoints else autoSpecimenPoints)
        (if string_dec tele "s" then dcSamplePoints else dcSpecimenPoints)
        endgame)
  /\ Forall (fun flag =>
               forall other : string,
                 getAllScores api team flag other endgame =
                 getAllScores api team "S" other endgame
                 /\ getAllScores api team other flag endgame =
                    getAllScores api team other "S" endgame)
            ["S"; "sample"; "specimen"]%string.
Proof.
  assert (Hgen : forall auto tele : string,
             getAllScores api team auto tele endgame =
             series_of api team
               (if string_dec auto "s" then autoSamplePoints else autoSpecimenPoints)
               (if string_dec tele "s" then dcSamplePoints else dcSpecimenPoints)
               endgame).
  { intros auto tele. rewrite getAllScores_series.
    destruct (string_dec auto "s") as [->|Ha], (string_dec tele "s") as [->|Ht];
      try (apply String.eqb_neq in Ha; rewrite Ha);
      try (apply String.eqb_neq in Ht; rewrite Ht);
      reflexivity. }
  split; [exact Hgen|].
  repeat constructor; rewrite !Hgen; reflexivity.
Qed.

End Aggregator.



(** ** The estimator, and [calculate] on short series *)

(** C7: on the series [10, 20, 30] the estimator yields the mean 20 and
    the standard deviation 10, in binary64 and in exact arithmetic alike;
    with the flag [true], as [calculate] passes it, [jStat.stdev] divides
    the sum of squared deviations by [n - 1]. *)
Theorem estimator_10_20_30 :
  team_stats (map float_lit [10; 20; 30]%Z) = (float_lit 20, float_lit 10)
  /\ team_stats (map IZR [10; 20; 30]%Z) = (IZR 20, IZR 10)
  /\ (forall (num : Type) (A : Arith num) (arr : list num),
         snd (team_stats arr) =
         sqrt (div (jStat_sumsqerr arr) (sub (arr_length arr) (lit 1)))).
Proof.
  split; [vm_compute; reflexivity|].
  split; [|reflexivity].
  unfold team_stats, jStat_stdev, jStat_variance, jStat_sumsqerr, jStat_mean,
    jStat_sum, arr_length; simpl.
  f_equal.
  - field.
  - replace ((0 + (30 - (0 + 30 + 20 + 10) / 3) * (30 - (0 + 30 + 20 + 10) / 3) +
              (20 - (0 + 30 + 20 + 10) / 3) * (20 - (0 + 30 + 20 + 10) / 3) +
              (10 - (0 + 30 + 20 + 10) / 3) * (10 - (0 + 30 + 20 + 10) / 3)) / (3 - 1))%R
      with (10 * 10)%R by field.
    apply sqrt_square. lra.
Qed.

Section ShortSeries.

Variables Math_exp Math_log jStat_erf : float -> float.

Hypothesis jStat_erf_nan : jStat_erf nan = nan.

(** The curve of a [NaN] mean or a [NaN] deviation is empty: the first
    test [x <= max] fails. *)
Lemma generateNormalData_nan (fuel : nat) (mean std : float) (label : string) :
  mean = nan \/ std = nan ->
  generateNormalData Math_exp Math_log (S fuel) mean std label = Some [].
Proof.
  intros H. unfold generateNormalData; simpl.
  assert (Hmin : (mean - float_lit 3 * std)%float = nan).
  { destruct H as [-> | ->]; autorewrite with float_nan; reflexivity. }
  rewrite Hmin. autorewrite with float_nan; reflexivity.
Qed.

(** A [NaN] among the four means or the four deviations makes the
    probability [NaN]. *)
Lemma allianceWinProbability_nan (mu1 sigma1 mu2 sigma2 mu3 sigma3 mu4 sigma4 : float) :
  In nan [mu1; sigma1; mu2; sigma2; mu3; sigma3; mu4; sigma4] ->
  allianceWinProbability jStat_erf mu1 sigma1 mu2 sigma2 mu3 sigma3 mu4 sigma4 = nan.
Proof.
  intros H. unfold allianceWinProbability, alliance_sum, jStat_normal_cdf, sq; simpl.
  assert (Hq : ((mu1 + mu2 - (mu3 + mu4)) /
                PrimFloat.sqrt (sigma1 * sigma1 + sigma2 * sigma2 +
                                (sigma3 * sigma3 + sigma4 * sigma4)))%float = nan).
  { simpl in H.
    repeat (destruct H as [-> | H]);
      [autorewrite with float_nan; try reflexivity;
       change (PrimFloat.sqrt nan) with nan; autorewrite with float_nan; reflexivity ..
      | contradiction]. }
  rewrite Hq. autorewrite with float_nan. rewrite jStat_erf_nan.
  autorewrite with float_nan; reflexivity.
Qed.


End ShortSeries.



(** ** The win probability *)

(** C6: combining two team distributions does not depend on their
    order, in either arithmetic: the combined mean is [mu1 + mu2], the
    combined variance [sigma1^2 + sigma2^2]. *)
Theorem alliance_sum_comm {num : Type} {A : Arith num} (mu1 sigma1 mu2 sigma2 : num) :
  alliance_sum mu1 sigma1 mu2 sigma2 = alliance_sum mu2 sigma2 mu1 sigma1
  /\ alliance_sum mu1 sigma1 mu2 sigma2 =
     (add mu1 mu2, add (mul sigma1 sigma1) (mul sigma2 sigma2)).
Proof.
  split; [|reflexivity].
  unfold alliance_sum.
  now rewrite (add_comm mu1 mu2), (add_comm (sq sigma1) (sq sigma2)).
Qed.

Section WinProbabilityR.

Local Open Scope R_scope.

Variable erf : R -> R.

Lemma jStat_normal_cdf_std (z : R) :
  jStat_normal_cdf erf z 0 1 = std_normal_cdf erf z.
Proof.
  unfold jStat_normal_cdf, std_normal_cdf, half; simpl.
  replace (2 * 1 * 1) with 2 by ring.
  replace (z - 0) with z by ring.
  field.
Qed.

Lemma allianceWinProbability_R (mu1 sigma1 mu2 sigma2 mu3 sigma3 mu4 sigma4 : R) :
  allianceWinProbability erf mu1 sigma1 mu2 sigma2 mu3 sigma3 mu4 sigma4 =
  std_normal_cdf erf
    ((mu1 + mu2 - (mu3 + mu4)) /
     R_sqrt.sqrt (sigma1 ^ 2 + sigma2 ^ 2 + sigma3 ^ 2 + sigma4 ^ 2)).
Proof.
  unfold allianceWinProbability, alliance_sum, sq. cbn [fst snd].
  rewrite jStat_normal_cdf_std. simpl.
  do 3 f_equal. ring.
Qed.

End WinProbabilityR.

(** C1: the probability returned is [Phi (muD / sigmaD)] with
    [muD = (mu1 + mu2) - (mu3 + mu4)] and [sigmaD] the square root of the
    sum of the four squared deviations, where [Phi] is [jStat.normal.cdf]
    at mean 0 and deviation 1.  In either arithmetic this holds with the
    sum taken as the program takes it, [(s1^2 + s2^2) + (s3^2 + s4^2)];
    over the reals the sum is the plain sum of four squares and [Phi] is
    the standard normal distribution function
    [(1 + erf (z / sqrt 2)) / 2]. *)
Theorem allianceWinProbability_is_Phi :
  (forall (num : Type) (A : Arith num) (erf : num -> num)
          (mu1 sigma1 mu2 sigma2 mu3 sigma3 mu4 sigma4 : num),
      allianceWinProbability erf mu1 sigma1 mu2 sigma2 mu3 sigma3 mu4 sigma4 =
      jStat_normal_cdf erf
        (div (sub (add mu1 mu2) (add mu3 mu4))
             (sqrt (add (add (sq sigma1) (sq sigma2)) (add (sq sigma3) (sq sigma4)))))
        (lit 0) (lit 1))
  /\ (forall (erf : R -> R) (mu1 sigma1 mu2 sigma2 mu3 sigma3 mu4 sigma4 : R),
         allianceWinProbability erf mu1 sigma1 mu2 sigma2 mu3 sigma3 mu4 sigma4 =
         std_normal_cdf erf
           ((mu1 + mu2 - (mu3 + mu4)) /
            R_sqrt.sqrt (sigma1 ^ 2 + sigma2 ^ 2 + sigma3 ^ 2 + sigma4 ^ 2))%R).
Proof.
  split.
  - reflexivity.
  - intros. apply allianceWinProbability_R.
Qed.



(** X3: complement symmetry on doubles, up to the last rounding.  Let
    [a] be the argument at which [jStat.normal.cdf] calls [jStat.erf] for
    A against B.  When [muD] is not zero, the argument for B against A is
    [-a]; if [jStat.erf] takes opposite values at [a] and [-a], the two
    probabilities are the halves of [1 + erf a] and of [1 + (- erf a)]. *)
Theorem allianceWinProbability_complement_doubles (erf : float -> float)
    (mu1 sigma1 mu2 sigma2 mu3 sigma3 mu4 sigma4 : float) :
  let a := ((mu1 + mu2 - (mu3 + mu4)) /
            PrimFloat.sqrt (sigma1 * sigma1 + sigma2 * sigma2 +
                            (sigma3 * sigma3 + sigma4 * sigma4)) /
            PrimFloat.sqrt (float_lit 2 * float_lit 1 * float_lit 1))%float in
  PrimFloat.is_zero (mu1 + mu2 - (mu3 + mu4))%float = false ->
  erf (- a)%float = (- erf a)%float ->
  allianceWinProbability erf mu1 sigma1 mu2 sigma2 mu3 sigma3 mu4 sigma4
  = (float_lit 1 / float_lit 2 * (float_lit 1 + erf a))%float
  /\ allianceWinProbability erf mu3 sigma3 mu4 sigma4 mu1 sigma1 mu2 sigma2
     = (float_lit 1 / float_lit 2 * (float_lit 1 + - erf a))%float.
Proof.
  intros a HmuD Hodd. subst a.
  unfold allianceWinProbability, alliance_sum, jStat_normal_cdf, sq, half.
  cbn [lit add sub mul div sqrt float_arith].
  change (float_lit 0) with 0%float.
  rewrite !float_sub_zero_r.
  split; [reflexivity|].
  rewrite (float_add_comm (sigma3 * sigma3 + sigma4 * sigma4)%float).
  rewrite (float_sub_antisym _ _ HmuD).
  rewrite !float_div_opp_l, Hodd.
  reflexivity.
Qed.

Lemma allianceWinProbability_complement_doubles_witness :
  allianceWinProbability erf_shape (float_lit 50) (float_lit 10) (float_lit 40) (float_lit 12)
    (float_lit 45) (float_lit 9) (float_lit 42) (float_lit 11)
  = (float_lit 1 / float_lit 2 * (float_lit 1 + float_lit 7201759537037897 / float_lit (2 ^ 56)))%float
  /\ allianceWinProbability erf_shape (float_lit 45) (float_lit 9) (float_lit 42)
       (float_lit 11) (float_lit 50) (float_lit 10) (float_lit 40) (float_lit 12)
     = (float_lit 1 / float_lit 2 * (float_lit 1 + - (float_lit 7201759537037897 / float_lit (2 ^ 56))))%float.
Proof.
  destruct (allianceWinProbability_complement_doubles erf_shape
              (float_lit 50) (float_lit 10) (float_lit 40) (float_lit 12)
              (float_lit 45) (float_lit 9) (float_lit 42) (float_lit 11))
    as [HAB HBA]; [vm_compute; reflexivity | vm_compute; reflexivity |].
  split; [rewrite HAB | rewrite HBA]; vm_compute; reflexivity.
Defined.






(** ** The curve generator *)

(** A loop whose test passes and whose step leaves [x] where it is never
    returns. *)
Lemma generateNormalData_loop_stuck {num : Type} {A : Arith num}
    (Math_exp Math_log : num -> num) (x0 max step mean std : num) (label : string) :
  leb x0 max = true ->
  add x0 step = x0 ->
  forall (fuel : nat) (data : list (@CurvePoint num)),
    generateNormalData_loop Math_exp Math_log fuel x0 max step mean std label data = None.
Proof.
  intros Htest Hstep. induction fuel as [|fuel IH]; intros data; [reflexivity|].
  cbn [generateNormalData_loop].
  rewrite Htest, Hstep. apply IH.
Qed.

(** *** In exact arithmetic *)

Section GeneratorR.

Local Open Scope R_scope.

Variables (mean std : R) (label : string).

Lemma xs_from_length (step : R) (n : nat) :
  forall x0 : R, List.length (xs_from step n x0) = n.
Proof. induction n as [|n IH]; intros x0; simpl; [reflexivity | now rewrite IH]. Qed.

Lemma xs_from_nth (step : R) (n : nat) :
  forall (k : nat) (x0 : R),
    (k < n)%nat ->
    exists xk : R, nth_error (xs_from step n x0) k = Some xk /\ xk = x0 + INR k * step.
Proof.
  induction n as [|n IH]; intros k x0 Hk; [lia|].
  destruct k as [|k]; simpl.
  - exists x0. split; [reflexivity | ring].
  - destruct (IH k (x0 + step)) as [xk [Hnth Hxk]]; [lia|].
    exists xk. split; [exact Hnth|].
    rewrite Hxk. destruct k; simpl; ring.
Qed.

(** When [max] is [n] steps above [x0], the loop passes its test [n + 1]
    times and fails it once. *)
Lemma generateNormalData_loop_R (max step : R) (n : nat) :
  0 < step ->
  forall (fuel : nat) (x0 : R) (data : list (@CurvePoint R)),
    x0 + INR n * step = max ->
    (n + 2 <= fuel)%nat ->
    generateNormalData_loop exp ln fuel x0 max step mean std label data =
    Some (data ++ map (curve_point mean std label) (xs_from step (S n) x0)).
Proof.
  intros Hstep. induction n as [|n IH]; intros fuel x0 data Hmax Hfuel.
  - destruct fuel as [|[|fuel]]; [lia | lia |].
    simpl in Hmax. cbn [generateNormalData_loop leb add R_arith].
    rewrite R_leb_true by lra.
    rewrite R_leb_false by lra.
    reflexivity.
  - destruct fuel as [|fuel]; [lia|].
    rewrite S_INR in Hmax.
    assert (0 <= INR n) by apply pos_INR.
    cbn [generateNormalData_loop leb add R_arith].
    rewrite R_leb_true by nra.
    rewrite (IH fuel (x0 + step)) by (lra || lia).
    rewrite <- app_assoc. reflexivity.
Qed.

Lemma generateNormalData_R_pos (fuel : nat) :
  0 < std -> (52 <= fuel)%nat ->
  generateNormalData exp ln fuel mean std label =
  Some (map (curve_point mean std label)
            (xs_from ((mean + 3 * std - (mean - 3 * std)) / 50) 51 (mean - 3 * std))).
Proof.
  intros Hstd Hfuel. unfold generateNormalData.
  cbn [lit add sub mul div R_arith].
  rewrite (generateNormalData_loop_R
             (mean + 3 * std) ((mean + 3 * std - (mean - 3 * std)) / 50) 50).
  - reflexivity.
  - lra.
  - simpl. field.
  - lia.
Qed.

Lemma generateNormalData_R_neg (fuel : nat) :
  std < 0 -> (1 <= fuel)%nat ->
  generateNormalData exp ln fuel mean std label = Some [].
Proof.
  intros Hstd Hfuel. destruct fuel as [|fuel]; [lia|].
  unfold generateNormalData.
  cbn [lit add sub mul div leb R_arith generateNormalData_loop].
  rewrite R_leb_false by lra. reflexivity.
Qed.

Lemma generateNormalData_R_zero (fuel : nat) :
  generateNormalData exp ln fuel mean 0 label = None.
Proof.
  unfold generateNormalData.
  cbn [lit add sub mul div R_arith].
  replace ((mean + 3 * 0 - (mean - 3 * 0)) / 50) with 0 by field.
  apply generateNormalData_loop_stuck.
  - apply R_leb_true. lra.
  - apply Rplus_0_r.
Qed.


End GeneratorR.


(** *** In binary64 arithmetic *)

(** With a zero deviation and a finite mean the loop never returns:
    [min] is [mean], [max] is [mean + 0], the step is zero. *)
Lemma generateNormalData_float_zero_std (Math_exp Math_log : float -> float)
    (mean : float) (label : string) (fuel : nat) :
  finite_double mean = true ->
  generateNormalData Math_exp Math_log fuel mean 0%float label = None.
Proof.
  intros Hfin. unfold generateNormalData.
  cbn [lit add sub mul div float_arith].
  change (float_lit 3 * 0)%float with 0%float.
  rewrite float_sub_zero_r, (float_sub_self mean Hfin).
  change (0 / float_lit 50)%float with 0%float.
  destruct (float_leb_add_zero mean Hfin) as [Hfirst Hnext].
  destruct fuel as [|fuel]; [reflexivity|].
  cbn [generateNormalData_loop leb add float_arith].
  rewrite Hfirst.
  apply (generateNormalData_loop_stuck (A := float_arith)).
  - exact Hnext.
  - apply float_add_zero_twice.
Qed.




(** C4, at the inputs where the program departs from it: in binary64
    arithmetic the accumulated [x] passes [max] one step early, at mean 0
    and deviation 1 as at mean 90 and deviation 14, which leaves 50
    points, the last of them one step short of [mean + 3 std]: at 2.88
    and not at 3, at 130.32 and not at 132. *)
Theorem generateNormalData_not_51_points :
  option_map (@List.length _)
    (generateNormalData engine_exp engine_log 60 (float_lit 0) (float_lit 1) "Red Alliance")
  = Some 50%nat
  /\ option_map (fun data => option_map (@x float) (nth_error data 49))
       (generateNormalData engine_exp engine_log 60 (float_lit 0) (float_lit 1) "Red Alliance")
     = Some (Some (float_lit 288 / float_lit 100)%float)
  /\ option_map (@List.length _)
       (generateNormalData engine_exp engine_log 60 (float_lit 90) (float_lit 14) "Red Alliance")
     = Some 50%nat
  /\ option_map (fun data => option_map (@x float) (nth_error data 49))
       (generateNormalData engine_exp engine_log 60 (float_lit 90) (float_lit 14) "Red Alliance")
     = Some (Some (float_lit 13032 / float_lit 100)%float).
Proof. repeat split; vm_compute; reflexivity. Qed.
